(** * SecretMessage: the decryption-authorisation state machine

    A shallow embedding of [contracts/SecretMsg_FHE.sol] (contract
    [SecretMessage]) and the properties of its record life cycle:
    creation, expiration, one-shot verified decryption and burn after
    reading.

    Storage is modelled as the contract declares it: a mapping from
    message id to [EncryptedMessage] (a [gmap] read through the all-zero
    default, as a Solidity mapping is) and the dynamic array
    [messageIds].  Every external function is a computation in a small
    state-and-revert monad; [transact] is the EVM's rule that a reverted
    call leaves no trace. *)

From Stdlib Require Import ZArith String List Bool Lia.
From stdpp Require Import base option list gmap strings.

#[local] Open Scope string_scope.
#[local] Open Scope list_scope.

(** ** Solidity value types *)

(** [bytes]: a byte string. *)
Abbreviation bytes := (list Byte.byte).

(** [bytes32], and the user-defined value types [euint32] and
    [externalEuint32] that wrap it. *)
Abbreviation bytes32 := Z (only parsing).
Abbreviation euint32 := Z (only parsing).
Abbreviation externalEuint32 := Z (only parsing).
Abbreviation address := Z (only parsing).
Abbreviation uint256 := Z (only parsing).
Abbreviation uint32 := Z (only parsing).

(** ** Reverts *)

Inductive Error : Type :=
| Require_failed (reason : string)      (* require(cond, reason) *)
| FHE_fromExternal_reverted             (* input proof rejected *)
| FHE_checkSignatures_reverted          (* decryption proof rejected *)
| Abi_decode_reverted.                  (* abi.decode on bad data *)

#[global] Instance Error_eq_dec : EqDecision Error.
Proof. solve_decision. Defined.

(** The names the specification gives to the contract's failures. *)
Definition DuplicateId : Error := Require_failed "Message ID already exists".
Definition MalformedCiphertext : Error := Require_failed "Invalid encrypted content".
Definition NotFound : Error := Require_failed "Message does not exist".
Definition AlreadyDecrypted : Error := Require_failed "Message already decrypted".
Definition Expired : Error := Require_failed "Message expired".
Definition InvalidProof : Error := FHE_checkSignatures_reverted.

(** ** Storage layout *)

Record EncryptedMessage : Type := mkMessage {
  encryptedContent : euint32;
  expirationTime : uint256;
  isBurnAfterReading : bool;
  isDecrypted : bool;
  sender : address;
  timestamp : uint256;
  condition : string;
  decryptedContent : uint32
}.

(** The value every key of a Solidity mapping holds until it is written,
    and again after [delete]. *)
Definition zero_message : EncryptedMessage :=
  {| encryptedContent := 0;
     expirationTime := 0;
     isBurnAfterReading := false;
     isDecrypted := false;
     sender := 0;
     timestamp := 0;
     condition := "";
     decryptedContent := 0 |}.

(** The events the contract declares.  The log of a state holds these
    only: what the FHE library emits of its own while it runs on the
    contract's behalf is not part of it. *)
Inductive Event : Type :=
| MessageSent (messageId : string) (sender : address)
| MessageDecrypted (messageId : string) (decryptedContent : uint32)
| MessageBurned (messageId : string).

(** Calls the contract makes to the access-control list of the FHE
    coprocessor. *)
Inductive AclCall : Type :=
| AllowThis (handle : euint32)
| MakePubliclyDecryptable (handle : euint32).

Record State : Type := mkState {
  encryptedMessages : gmap string EncryptedMessage;
  messageIds : list string;
  events : list Event;
  acl_calls : list AclCall
}.

Definition empty_state : State :=
  {| encryptedMessages := ∅; messageIds := []; events := []; acl_calls := [] |}.

(** [encryptedMessages[messageId]] as an r-value. *)
Definition message_at (s : State) (messageId : string) : EncryptedMessage :=
  default zero_message (encryptedMessages s !! messageId).

(** The existence sentinel the contract tests:
    [bytes(encryptedMessages[messageId].condition).length > 0]. *)
Definition message_exists (s : State) (messageId : string) : bool :=
  (0 <? String.length (condition (message_at s messageId)))%nat.

(** The transaction context. *)
Record Env : Type := mkEnv {
  msg_sender : address;
  block_timestamp : uint256
}.

(** ** The state-and-revert monad *)

Inductive Outcome (A : Type) : Type :=
| Ok (a : A) (s : State)
| Revert (e : Error) (s : State).   (* [s]: the state reached when the revert was raised *)
Arguments Ok {A} a s.
Arguments Revert {A} e s.

Definition M (A : Type) : Type := State -> Outcome A.

Definition ret {A} (a : A) : M A := fun s => Ok a s.

Definition bind {A B} (c : M A) (k : A -> M B) : M B :=
  fun s => match c s with
           | Ok a s' => k a s'
           | Revert e s' => Revert e s'
           end.

Notation "x <- c ;; k" := (bind c (fun x => k))
  (at level 100, c at next level, right associativity).
Notation "c ;;; k" := (bind c (fun _ => k))
  (at level 100, right associativity).

Definition revert {A} (e : Error) : M A := fun s => Revert e s.

Definition require (cond : bool) (reason : string) : M unit :=
  if cond then ret tt else revert (Require_failed reason).

Definition read_message (messageId : string) : M EncryptedMessage :=
  fun s => Ok (message_at s messageId) s.

Definition write_message (messageId : string) (m : EncryptedMessage) : M unit :=
  fun s => Ok tt {| encryptedMessages := <[messageId := m]> (encryptedMessages s);
                    messageIds := messageIds s;
                    events := events s;
                    acl_calls := acl_calls s |}.

Definition delete_message (messageId : string) : M unit :=
  fun s => Ok tt {| encryptedMessages := delete messageId (encryptedMessages s);
                    messageIds := messageIds s;
                    events := events s;
                    acl_calls := acl_calls s |}.

Definition push_messageId (messageId : string) : M unit :=
  fun s => Ok tt {| encryptedMessages := encryptedMessages s;
                    messageIds := messageIds s ++ [messageId];
                    events := events s;
                    acl_calls := acl_calls s |}.

Definition emit (ev : Event) : M unit :=
  fun s => Ok tt {| encryptedMessages := encryptedMessages s;
                    messageIds := messageIds s;
                    events := events s ++ [ev];
                    acl_calls := acl_calls s |}.

Definition acl_call (c : AclCall) : M unit :=
  fun s => Ok tt {| encryptedMessages := encryptedMessages s;
                    messageIds := messageIds s;
                    events := events s;
                    acl_calls := acl_calls s ++ [c] |}.

(** What the chain keeps of a call: the new state if it returned, the
    old one if it reverted. *)
Definition transact {A} (c : M A) (s : State) : State :=
  match c s with
  | Ok _ s' => s'
  | Revert _ _ => s
  end.

Definition succeeds {A} (o : Outcome A) : bool :=
  match o with Ok _ _ => true | Revert _ _ => false end.

(** ** [abi.decode(data, (uint32))] *)

(** The big-endian value of a byte string. *)
Definition be_value (data : bytes) : Z :=
  fold_left (fun acc b => (acc * 256 + Z.of_N (Byte.to_N b))%Z) data 0%Z.

(** The decoder reads the first 32-byte word, and reverts when the data
    is shorter than a word or the word does not fit [uint32]. *)
Definition abi_decode_uint32 (data : bytes) : option uint32 :=
  if (length data <? 32)%nat then None
  else let w := be_value (take 32 data) in
       if (w <? 2 ^ 32)%Z then Some w else None.

(** [FHE.toBytes32]: unwraps the handle. *)
Definition toBytes32 (h : euint32) : bytes32 := h.

(** ** The imported FHE library

    [@fhevm/solidity/lib/FHE.sol] is not part of the repository: the
    contract is verified against any implementation of the three
    functions whose result it inspects.  A function of the library that
    reverts is one that returns [None] or [false] here. *)
Class FHE : Type := {
  (** [FHE.fromExternal(handle, inputProof)], called on behalf of
      [msg.sender]: the verified handle, or a revert. *)
  fromExternal : address -> externalEuint32 -> bytes -> option euint32;
  (** [FHE.isInitialized(handle)]. *)
  isInitialized : euint32 -> bool;
  (** [FHE.checkSignatures(handles, abiEncodedCleartexts, proof)]:
      returns when the proof is accepted, reverts otherwise. *)
  checkSignatures : list bytes32 -> bytes -> bytes -> bool
}.

Section Contract.

Context `{fhe : FHE}.

Definition FHE_fromExternal (env : Env) (inputHandle : externalEuint32)
    (inputProof : bytes) : M euint32 :=
  match fromExternal (msg_sender env) inputHandle inputProof with
  | Some h => ret h
  | None => revert FHE_fromExternal_reverted
  end.

(** [FHE.checkSignatures] returns or reverts; the notification of an
    accepted decryption that the library emits itself is the library's
    event, not one of [Event], and is not recorded. *)
Definition FHE_checkSignatures (handlesList : list bytes32)
    (abiEncodedCleartexts decryptionProof : bytes) : M unit :=
  if checkSignatures handlesList abiEncodedCleartexts decryptionProof
  then ret tt
  else revert FHE_checkSignatures_reverted.

(** [FHE.allowThis] and [FHE.makePubliclyDecryptable] are calls to the
    coprocessor's access-control list.  They are made on a handle that
    [FHE.fromExternal] has just returned to this contract, and are taken
    to return; the call is recorded. *)
Definition FHE_allowThis (h : euint32) : M unit := acl_call (AllowThis h).

Definition FHE_makePubliclyDecryptable (h : euint32) : M unit :=
  acl_call (MakePubliclyDecryptable h).

Definition abi_decode (data : bytes) : M uint32 :=
  match abi_decode_uint32 data with
  | Some v => ret v
  | None => revert Abi_decode_reverted
  end.

(** [encryptedMessages[messageId].decryptedContent = v] *)
Definition store_decryptedContent (messageId : string) (v : uint32) : M unit :=
  m <- read_message messageId ;;
  write_message messageId
    {| encryptedContent := encryptedContent m;
       expirationTime := expirationTime m;
       isBurnAfterReading := isBurnAfterReading m;
       isDecrypted := isDecrypted m;
       sender := sender m;
       timestamp := timestamp m;
       condition := condition m;
       decryptedContent := v |}.

(** [encryptedMessages[messageId].isDecrypted = b] *)
Definition store_isDecrypted (messageId : string) (b : bool) : M unit :=
  m <- read_message messageId ;;
  write_message messageId
    {| encryptedContent := encryptedContent m;
       expirationTime := expirationTime m;
       isBurnAfterReading := isBurnAfterReading m;
       isDecrypted := b;
       sender := sender m;
       timestamp := timestamp m;
       condition := condition m;
       decryptedContent := decryptedContent m |}.

(** *** [sendMessage] *)
Definition sendMessage (env : Env) (messageId : string)
    (encryptedContent' : externalEuint32) (inputProof : bytes)
    (expirationTime' : uint256) (isBurnAfterReading' : bool)
    (condition' : string) : M unit :=
  m <- read_message messageId ;;
  require (String.length (condition m) =? 0)%nat "Message ID already exists" ;;;
  h <- FHE_fromExternal env encryptedContent' inputProof ;;
  require (isInitialized h) "Invalid encrypted content" ;;;
  h <- FHE_fromExternal env encryptedContent' inputProof ;;
  write_message messageId
    {| encryptedContent := h;
       expirationTime := expirationTime';
       isBurnAfterReading := isBurnAfterReading';
       isDecrypted := false;
       sender := msg_sender env;
       timestamp := block_timestamp env;
       condition := condition';
       decryptedContent := 0 |} ;;;
  m <- read_message messageId ;;
  FHE_allowThis (encryptedContent m) ;;;
  m <- read_message messageId ;;
  FHE_makePubliclyDecryptable (encryptedContent m) ;;;
  push_messageId messageId ;;;
  emit (MessageSent messageId (msg_sender env)).

(** *** [decryptMessage] *)
Definition decryptMessage (env : Env) (messageId : string)
    (abiEncodedClearValue decryptionProof : bytes) : M unit :=
  m <- read_message messageId ;;
  require (0 <? String.length (condition m))%nat "Message does not exist" ;;;
  m <- read_message messageId ;;
  require (negb (isDecrypted m)) "Message already decrypted" ;;;
  m <- read_message messageId ;;
  require (block_timestamp env <=? expirationTime m)%Z "Message expired" ;;;
  m <- read_message messageId ;;
  let cts := [toBytes32 (encryptedContent m)] in
  FHE_checkSignatures cts abiEncodedClearValue decryptionProof ;;;
  decodedValue <- abi_decode abiEncodedClearValue ;;
  store_decryptedContent messageId decodedValue ;;;
  store_isDecrypted messageId true ;;;
  m <- read_message messageId ;;
  if isBurnAfterReading m then
    delete_message messageId ;;;
    emit (MessageBurned messageId)
  else
    emit (MessageDecrypted messageId decodedValue).

(** *** The views *)
Definition getMessage (messageId : string)
  : M (uint256 * bool * bool * address * uint256 * string * uint32) :=
  m <- read_message messageId ;;
  require (0 <? String.length (condition m))%nat "Message does not exist" ;;;
  message <- read_message messageId ;;
  ret (expirationTime message, isBurnAfterReading message, isDecrypted message,
       sender message, timestamp message, condition message,
       decryptedContent message).

Definition getAllMessageIds : M (list string) :=
  fun s => Ok (messageIds s) s.

Definition getEncryptedContent (messageId : string) : M euint32 :=
  m <- read_message messageId ;;
  require (0 <? String.length (condition m))%nat "Message does not exist" ;;;
  m <- read_message messageId ;;
  ret (encryptedContent m).

Definition isAvailable : M bool := ret true.

(** ** Transactions and histories *)

Inductive Call : Type :=
| SendMessage (messageId : string) (encryptedContent' : externalEuint32)
    (inputProof : bytes) (expirationTime' : uint256)
    (isBurnAfterReading' : bool) (condition' : string)
| DecryptMessage (messageId : string)
    (abiEncodedClearValue decryptionProof : bytes).

Definition call (env : Env) (c : Call) : M unit :=
  match c with
  | SendMessage messageId h p e b c => sendMessage env messageId h p e b c
  | DecryptMessage messageId v p => decryptMessage env messageId v p
  end.

(** The id a transaction names. *)
Definition call_id (c : Call) : string :=
  match c with
  | SendMessage messageId _ _ _ _ _ => messageId
  | DecryptMessage messageId _ _ => messageId
  end.

(** One transaction applied to the chain state. *)
Definition step (tx : Env * Call) (s : State) : State :=
  transact (call (fst tx) (snd tx)) s.

(** A history of transactions, oldest first. *)
Fixpoint run (txs : list (Env * Call)) (s : State) : State :=
  match txs with
  | [] => s
  | tx :: txs' => run txs' (step tx s)
  end.

(** The record [messageId] exists before the history and after each of
    its transactions. *)
Fixpoint exists_throughout (messageId : string) (txs : list (Env * Call))
    (s : State) : bool :=
  message_exists s messageId &&
  match txs with
  | [] => true
  | tx :: txs' => exists_throughout messageId txs' (step tx s)
  end.

(** The transaction is a [sendMessage] for [messageId] that returns. *)
Definition creates (messageId : string) (tx : Env * Call) (s : State) : bool :=
  match snd tx with
  | SendMessage messageId' _ _ _ _ _ =>
      bool_decide (messageId' = messageId) && succeeds (call (fst tx) (snd tx) s)
  | DecryptMessage _ _ _ => false
  end.

(** No transaction of the history creates [messageId]. *)
Fixpoint never_created (messageId : string) (txs : list (Env * Call))
    (s : State) : bool :=
  match txs with
  | [] => true
  | tx :: txs' =>
      negb (creates messageId tx s) && never_created messageId txs' (step tx s)
  end.

End Contract.

(** ** Closed forms of the post-states *)

(** The record [m] once disclosed with clear value [v]. *)
Definition disclosed (m : EncryptedMessage) (v : uint32) : EncryptedMessage :=
  {| encryptedContent := encryptedContent m;
     expirationTime := expirationTime m;
     isBurnAfterReading := isBurnAfterReading m;
     isDecrypted := true;
     sender := sender m;
     timestamp := timestamp m;
     condition := condition m;
     decryptedContent := v |}.

(** The state a returning [decryptMessage] leaves. *)
Definition after_decrypt (s : State) (messageId : string) (v : uint32) : State :=
  if isBurnAfterReading (message_at s messageId) then
    {| encryptedMessages := delete messageId (encryptedMessages s);
       messageIds := messageIds s;
       events := events s ++ [MessageBurned messageId];
       acl_calls := acl_calls s |}
  else
    {| encryptedMessages :=
         <[messageId := disclosed (message_at s messageId) v]> (encryptedMessages s);
       messageIds := messageIds s;
       events := events s ++ [MessageDecrypted messageId v];
       acl_calls := acl_calls s |}.

(** The record a returning [sendMessage] writes. *)
Definition fresh_message (env : Env) (h : euint32) (expirationTime' : uint256)
    (isBurnAfterReading' : bool) (condition' : string) : EncryptedMessage :=
  {| encryptedContent := h;
     expirationTime := expirationTime';
     isBurnAfterReading := isBurnAfterReading';
     isDecrypted := false;
     sender := msg_sender env;
     timestamp := block_timestamp env;
     condition := condition';
     decryptedContent := 0 |}.

(** The state a returning [sendMessage] leaves. *)
Definition after_send (s : State) (env : Env) (messageId : string) (h : euint32)
    (expirationTime' : uint256) (isBurnAfterReading' : bool)
    (condition' : string) : State :=
  {| encryptedMessages :=
       <[messageId := fresh_message env h expirationTime' isBurnAfterReading' condition']>
         (encryptedMessages s);
     messageIds := messageIds s ++ [messageId];
     events := events s ++ [MessageSent messageId (msg_sender env)];
     acl_calls := acl_calls s ++ [AllowThis h; MakePubliclyDecryptable h] |}.

(** ** A test double of the FHE library, and ABI encoding

  Used to run the contract on concrete histories. *)
Module Double.

(** Accepts every input proof but the empty one. *)
Definition verify_input (user : address) (h : externalEuint32) (inputProof : bytes)
  : option euint32 :=
  match inputProof with
  | [] => None
  | _ :: _ => Some h
  end.

Definition initialized (h : euint32) : bool := negb (h =? 0)%Z.

(** A decryption proof is the big-endian sum of the handle and the
    clear value it attests. *)
Definition check_signatures (handles : list bytes32) (clear proof : bytes) : bool :=
  match handles with
  | [h] => (be_value proof =? h + be_value clear)%Z
  | _ => false
  end.

Definition fhe : FHE :=
  {| fromExternal := verify_input;
     isInitialized := initialized;
     checkSignatures := check_signatures |}.

Definition byte_of_Z (z : Z) : Byte.byte :=
  default Byte.x00 (Byte.of_N (Z.to_N (z mod 256))).

(** [abi.encode(uint32(v))]: one 32-byte big-endian word. *)
Definition abi_encode_uint32 (v : uint32) : bytes :=
  replicate 28 Byte.x00 ++
  [byte_of_Z (v / 2 ^ 24); byte_of_Z (v / 2 ^ 16); byte_of_Z (v / 2 ^ 8); byte_of_Z v].

Definition alice : address := 161.
Definition bob : address := 178.

(** The chain time [T] of the scenarios. *)
Definition T : uint256 := 1700000000.

Definition at_time (who : address) (now : uint256) : Env :=
  {| msg_sender := who; block_timestamp := now |}.

(** The handle of the scenarios' ciphertext, its input proof and the
    decryption proof of clear value 42. *)
Definition handle : euint32 := 7.
Definition inputProof : bytes := [Byte.x01].
Definition proof42 : bytes := [Byte.x31].
Definition badProof : bytes := [Byte.x00].
Definition clear42 : bytes := abi_encode_uint32 42.

(** The scenarios' transactions. *)
Definition send_m1 (burn : bool) : Env * Call :=
  (at_time alice T,
   SendMessage "m1" handle inputProof (T + 3600) burn "after noon").
Definition decrypt_m1 (now : uint256) : Env * Call :=
  (at_time bob now, DecryptMessage "m1" clear42 proof42).
Definition send_m2 : Env * Call :=
  (at_time bob (T + 5), SendMessage "m2" 11 inputProof (T + 60) false "m2").

(** ["m1"] sent on the empty ledger, to be kept or to be burned. *)
Definition sent : State := run (fhe := fhe) [send_m1 false] empty_state.
Definition sent_burn : State := run (fhe := fhe) [send_m1 true] empty_state.

(** ... and then decrypted at [T + 10]. *)
Definition decrypted : State := step (fhe := fhe) (decrypt_m1 (T + 10)) sent.
Definition burned : State := step (fhe := fhe) (decrypt_m1 (T + 10)) sent_burn.

End Double.

(** ** Reading histories *)

(** The ids of the [MessageSent] events of a log, oldest first. *)
Definition sent_ids (evs : list Event) : list string :=
  omap (fun ev => match ev with
                  | MessageSent messageId _ => Some messageId
                  | _ => None
                  end) evs.

(** The fields of a record that [sendMessage] writes and
    [decryptMessage] does not assign. *)
Definition creation_fields (m : EncryptedMessage)
  : euint32 * uint256 * bool * address * uint256 * string :=
  (encryptedContent m, expirationTime m, isBurnAfterReading m, sender m,
   timestamp m, condition m).

(** No transaction of the history is mined before [now]. *)
Definition not_before (now : uint256) (txs : list (Env * Call)) : Prop :=
  Forall (fun tx => (now <= block_timestamp (fst tx))%Z) txs.

(** ** The front end's operation history ([frontend/web/src/App.tsx])

    [addToHistory] prepends the entry
    [`${new Date().toLocaleTimeString()}: ${action}`] to the first nine
    entries of the previous history; the clock's string is an input. *)
Definition history_entry (time action : string) : string :=
  time ++ ": " ++ action.

Definition addToHistory (time action : string) (prev : list string) : list string :=
  history_entry time action :: take 9 prev.

(** The history after a sequence of (time, action) pairs, oldest
    first, starting from the initial state [[]]. *)
Definition history_after (actions : list (string * string)) : list string :=
  fold_left (fun prev ta => addToHistory (fst ta) (snd ta) prev) actions [].

(** ** The entry points as decision ladders *)

Section Ladders.

Context `{fhe : FHE}.

Lemma message_at_insert_eq (s : State) (em : gmap string EncryptedMessage)
    (messageId : string) (m : EncryptedMessage) ids evs acl :
  message_at {| encryptedMessages := <[messageId := m]> em;
                messageIds := ids; events := evs; acl_calls := acl |} messageId = m.
Proof. unfold message_at; simpl. by rewrite lookup_insert_eq. Qed.

(** [decryptMessage] checks existence, then the flag, then the clock,
    then the proof, then decodes; only then does it write. *)
Lemma decryptMessage_ladder (env : Env) (messageId : string)
    (clear proof : bytes) (s : State) :
  decryptMessage env messageId clear proof s =
  let m := message_at s messageId in
  if (0 <? String.length (condition m))%nat then
    if isDecrypted m then Revert AlreadyDecrypted s
    else if (block_timestamp env <=? expirationTime m)%Z then
      if checkSignatures [toBytes32 (encryptedContent m)] clear proof then
        match abi_decode_uint32 clear with
        | Some v => Ok tt (after_decrypt s messageId v)
        | None => Revert Abi_decode_reverted s
        end
      else Revert InvalidProof s
    else Revert Expired s
  else Revert NotFound s.
Proof.
  unfold decryptMessage, bind, read_message, require; simpl.
  destruct (0 <? String.length (condition (message_at s messageId)))%nat; [|done].
  simpl. destruct (isDecrypted (message_at s messageId)) eqn:Hd; [done|].
  simpl. destruct (block_timestamp env <=? expirationTime (message_at s messageId))%Z; [|done].
  simpl. unfold FHE_checkSignatures.
  destruct (checkSignatures _ clear proof); [|done].
  simpl. unfold abi_decode. destruct (abi_decode_uint32 clear) as [v|]; [|done].
  simpl. unfold after_decrypt, message_at; simpl.
  rewrite !lookup_insert_eq; simpl.
  fold (message_at s messageId).
  destruct (isBurnAfterReading (message_at s messageId)) eqn:Hb; simpl.
  - by rewrite !delete_insert_eq.
  - unfold emit, disclosed; simpl. by rewrite insert_insert_eq, Hb.
Qed.

(** [sendMessage] checks that the id is free, then the ciphertext;
    only then does it write. *)
Lemma sendMessage_ladder (env : Env) (messageId : string) (h : externalEuint32)
    (inputProof : bytes) (e : uint256) (b : bool) (c : string) (s : State) :
  sendMessage env messageId h inputProof e b c s =
  if (String.length (condition (message_at s messageId)) =? 0)%nat then
    match fromExternal (msg_sender env) h inputProof with
    | Some h' =>
        if isInitialized h' then Ok tt (after_send s env messageId h' e b c)
        else Revert MalformedCiphertext s
    | None => Revert FHE_fromExternal_reverted s
    end
  else Revert DuplicateId s.
Proof.
  unfold sendMessage, bind, read_message, require; simpl.
  destruct (String.length (condition (message_at s messageId)) =? 0)%nat; [|done].
  simpl. unfold FHE_fromExternal.
  destruct (fromExternal (msg_sender env) h inputProof) as [h'|]; [|done].
  simpl. destruct (isInitialized h'); [|done].
  simpl. unfold after_send, fresh_message, message_at; simpl.
  rewrite !lookup_insert_eq; simpl. by rewrite <- app_assoc.
Qed.

Lemma getMessage_ladder (messageId : string) (s : State) :
  getMessage messageId s =
  let m := message_at s messageId in
  if (0 <? String.length (condition m))%nat then
    Ok (expirationTime m, isBurnAfterReading m, isDecrypted m, sender m,
        timestamp m, condition m, decryptedContent m) s
  else Revert NotFound s.
Proof.
  unfold getMessage, bind, read_message, require; simpl.
  by destruct (0 <? String.length (condition (message_at s messageId)))%nat.
Qed.

End Ladders.

(** ** Reading the store after a write *)

Section Frames.

Context `{fhe : FHE}.

Lemma length_pos_nonempty (c : string) :
  (0 <? String.length c)%nat = true <-> c <> "".
Proof.
  destruct c as [|a c]; simpl; split; try done.
Qed.

Lemma length_zero_not_pos (c : string) :
  (String.length c =? 0)%nat = negb (0 <? String.length c)%nat.
Proof. by destruct c. Qed.

Lemma message_exists_nonempty (s : State) (messageId : string) :
  message_exists s messageId = true <-> condition (message_at s messageId) <> "".
Proof. apply length_pos_nonempty. Qed.

Lemma message_at_after_send_eq s env messageId h e b c :
  message_at (after_send s env messageId h e b c) messageId = fresh_message env h e b c.
Proof. unfold message_at, after_send; simpl. by rewrite lookup_insert_eq. Qed.

Lemma message_at_after_send_ne s env messageId other h e b c :
  messageId <> other ->
  message_at (after_send s env messageId h e b c) other = message_at s other.
Proof.
  intros Hne. unfold message_at, after_send; simpl. by rewrite lookup_insert_ne.
Qed.

Lemma message_at_after_decrypt_eq s messageId v :
  message_at (after_decrypt s messageId v) messageId =
  if isBurnAfterReading (message_at s messageId) then zero_message
  else disclosed (message_at s messageId) v.
Proof.
  unfold after_decrypt.
  destruct (isBurnAfterReading (message_at s messageId)); unfold message_at; simpl.
  - by rewrite lookup_delete_eq.
  - by rewrite lookup_insert_eq.
Qed.

Lemma message_at_after_decrypt_ne s messageId other v :
  messageId <> other ->
  message_at (after_decrypt s messageId v) other = message_at s other.
Proof.
  intros Hne. unfold after_decrypt.
  destruct (isBurnAfterReading (message_at s messageId)); unfold message_at; simpl.
  - by rewrite lookup_delete_ne.
  - by rewrite lookup_insert_ne.
Qed.

Lemma messageIds_after_decrypt s messageId v :
  messageIds (after_decrypt s messageId v) = messageIds s.
Proof. unfold after_decrypt. by destruct (isBurnAfterReading _). Qed.

(** A returning [decryptMessage], taken apart. *)
Lemma decryptMessage_Ok_inv env messageId clear proof s s' :
  decryptMessage env messageId clear proof s = Ok tt s' ->
  message_exists s messageId = true /\
  isDecrypted (message_at s messageId) = false /\
  (block_timestamp env <= expirationTime (message_at s messageId))%Z /\
  checkSignatures [toBytes32 (encryptedContent (message_at s messageId))] clear proof = true /\
  exists v, abi_decode_uint32 clear = Some v /\ s' = after_decrypt s messageId v.
Proof.
  rewrite decryptMessage_ladder; cbv zeta. unfold message_exists.
  destruct (0 <? String.length _)%nat; [|done].
  destruct (isDecrypted _); [done|].
  destruct (block_timestamp env <=? _)%Z eqn:Ht; [|done].
  destruct (checkSignatures _ _ _); [|done].
  destruct (abi_decode_uint32 clear) as [v|]; [|done].
  intros [= <-]. apply Z.leb_le in Ht. eauto 10.
Qed.

(** A reverting [decryptMessage] has written nothing. *)
Lemma decryptMessage_Revert_inv env messageId clear proof s e s' :
  decryptMessage env messageId clear proof s = Revert e s' -> s' = s.
Proof.
  rewrite decryptMessage_ladder; cbv zeta.
  repeat match goal with
         | |- context [if ?b then _ else _] => destruct b
         | |- context [match ?o with Some _ => _ | None => _ end] => destruct o
         end; congruence.
Qed.

(** A returning [sendMessage], taken apart. *)
Lemma sendMessage_Ok_inv env messageId h p e b c s s' :
  sendMessage env messageId h p e b c s = Ok tt s' ->
  message_exists s messageId = false /\
  exists h', fromExternal (msg_sender env) h p = Some h' /\
             isInitialized h' = true /\
             s' = after_send s env messageId h' e b c.
Proof.
  rewrite sendMessage_ladder, length_zero_not_pos. unfold message_exists.
  destruct (0 <? String.length _)%nat; [done|]; simpl.
  destruct (fromExternal _ _ _) as [h'|]; [|done].
  destruct (isInitialized h') eqn:Hi; [|done].
  intros [= <-]. eauto.
Qed.

Lemma sendMessage_Revert_inv env messageId h p e b c s err s' :
  sendMessage env messageId h p e b c s = Revert err s' -> s' = s.
Proof.
  rewrite sendMessage_ladder.
  repeat match goal with
         | |- context [if ?b then _ else _] => destruct b
         | |- context [match ?o with Some _ => _ | None => _ end] => destruct o
         end; congruence.
Qed.

(** A transaction touches no record but the one it names. *)
Lemma step_other_id (tx : Env * Call) (s : State) (messageId : string) :
  call_id (snd tx) <> messageId ->
  message_at (step tx s) messageId = message_at s messageId.
Proof.
  destruct tx as [env [id h p e b c | id v p]]; simpl; intros Hne;
    unfold step, transact; simpl.
  - destruct (sendMessage env id h p e b c s) as [[] s'|] eqn:Hs; [|done].
    apply sendMessage_Ok_inv in Hs as (_ & h' & _ & _ & ->).
    by apply message_at_after_send_ne.
  - destruct (decryptMessage env id v p s) as [[] s'|] eqn:Hs; [|done].
    apply decryptMessage_Ok_inv in Hs as (_ & _ & _ & _ & v' & _ & ->).
    by apply message_at_after_decrypt_ne.
Qed.

(** The id array only ever grows, at its end. *)
Lemma step_messageIds (tx : Env * Call) (s : State) :
  exists more, messageIds (step tx s) = messageIds s ++ more.
Proof.
  destruct tx as [env [id h p e b c | id v p]]; unfold step, transact; simpl.
  - destruct (sendMessage env id h p e b c s) as [[] s'|] eqn:Hs.
    + apply sendMessage_Ok_inv in Hs as (_ & h' & _ & _ & ->). by exists [id].
    + exists []. by rewrite app_nil_r.
  - destruct (decryptMessage env id v p s) as [[] s'|] eqn:Hs.
    + apply decryptMessage_Ok_inv in Hs as (_ & _ & _ & _ & v' & _ & ->).
      exists []. by rewrite messageIds_after_decrypt, app_nil_r.
    + exists []. by rewrite app_nil_r.
Qed.

Lemma run_messageIds (txs : list (Env * Call)) (s : State) :
  exists more, messageIds (run txs s) = messageIds s ++ more.
Proof.
  revert s. induction txs as [|tx txs IH]; intros s; simpl.
  - exists []. by rewrite app_nil_r.
  - destruct (IH (step tx s)) as [more2 ->].
    destruct (step_messageIds tx s) as [more1 ->].
    exists (more1 ++ more2). by rewrite app_assoc.
Qed.

End Frames.

(** ** Properties of a single [decryptMessage] call *)

Section Decrypt.

Context `{fhe : FHE}.

(** C3.  The four failures of [decryptMessage] are decided in the
    order existence, already-decrypted flag, expiration, proof: a
    missing record fails with [NotFound] whatever the rest; an
    existing, decrypted one with [AlreadyDecrypted] whatever the clock
    and the proof; an existing, undecrypted, expired one with
    [Expired] whatever the proof; and the proof is rejected with
    [InvalidProof] only when the three earlier checks pass.  When all
    four pass the call fails with none of them.  The four errors are
    pairwise distinct, so a call has exactly one outcome. *)
Theorem decrypt_failure_priority (env : Env) (messageId : string)
    (clear proof : bytes) (s : State) :
  let m := message_at s messageId in
  let outcome := decryptMessage env messageId clear proof s in
  let proof_ok := checkSignatures [toBytes32 (encryptedContent m)] clear proof in
  (condition m = "" -> outcome = Revert NotFound s) /\
  (condition m <> "" -> isDecrypted m = true ->
     outcome = Revert AlreadyDecrypted s) /\
  (condition m <> "" -> isDecrypted m = false ->
     (expirationTime m < block_timestamp env)%Z ->
     outcome = Revert Expired s) /\
  (condition m <> "" -> isDecrypted m = false ->
     (block_timestamp env <= expirationTime m)%Z -> proof_ok = false ->
     outcome = Revert InvalidProof s) /\
  (condition m <> "" -> isDecrypted m = false ->
     (block_timestamp env <= expirationTime m)%Z -> proof_ok = true ->
     forall e s', outcome = Revert e s' ->
       e <> NotFound /\ e <> AlreadyDecrypted /\ e <> Expired /\ e <> InvalidProof) /\
  NoDup [NotFound; AlreadyDecrypted; Expired; InvalidProof].
Proof.
  cbv zeta. rewrite decryptMessage_ladder; cbv zeta.
  set (m := message_at s messageId).
  split; [|split; [|split; [|split; [|split]]]].
  - intros ->. done.
  - intros Hc Hd. apply length_pos_nonempty in Hc. by rewrite Hc, Hd.
  - intros Hc Hd Ht. apply length_pos_nonempty in Hc. rewrite Hc, Hd.
    destruct (Z.leb_spec (block_timestamp env) (expirationTime m)); [lia|done].
  - intros Hc Hd Ht Hp. apply length_pos_nonempty in Hc. rewrite Hc, Hd, Hp.
    destruct (Z.leb_spec (block_timestamp env) (expirationTime m)); [done|lia].
  - intros Hc Hd Ht Hp e s'. apply length_pos_nonempty in Hc. rewrite Hc, Hd, Hp.
    destruct (Z.leb_spec (block_timestamp env) (expirationTime m)); [|lia].
    destruct (abi_decode_uint32 clear); [done|].
    intros [= <- _]. repeat split; discriminate.
  - apply (bool_decide_unpack _). by vm_compute.
Qed.

(** C4.  For an active record (it exists and is not decrypted), a
    [decryptMessage] call mined at exactly [expirationTime] is not
    rejected as [Expired]: its outcome is that of the proof
    verification and the decoding that follow.  A call mined at any
    later time fails with [Expired], whatever the proof and the
    verifier's verdict on it. *)
Theorem expiration_boundary (env : Env) (messageId : string)
    (clear proof : bytes) (s : State) :
  let m := message_at s messageId in
  message_exists s messageId = true ->
  isDecrypted m = false ->
  (block_timestamp env = expirationTime m ->
     (forall s', decryptMessage env messageId clear proof s <> Revert Expired s') /\
     decryptMessage env messageId clear proof s =
       if checkSignatures [toBytes32 (encryptedContent m)] clear proof then
         match abi_decode_uint32 clear with
         | Some v => Ok tt (after_decrypt s messageId v)
         | None => Revert Abi_decode_reverted s
         end
       else Revert InvalidProof s) /\
  ((expirationTime m < block_timestamp env)%Z ->
     decryptMessage env messageId clear proof s = Revert Expired s).
Proof.
  cbv zeta. unfold message_exists. intros Hex Hd.
  rewrite decryptMessage_ladder; cbv zeta. rewrite Hex, Hd. split.
  - intros ->. rewrite Z.leb_refl. split; [|done].
    intros s'. destruct (checkSignatures _ _ _); [|done].
    by destruct (abi_decode_uint32 clear).
  - intros Ht.
    by destruct (Z.leb_spec (block_timestamp env)
                   (expirationTime (message_at s messageId))); [lia|].
Qed.

(** C8.  A [decryptMessage] call that fails has written nothing: the
    state at the point of the revert is the state before the call, and
    so is the state the chain keeps.  When the failure is [Expired]
    (or a rejected proof, or undecodable data) the record therefore
    still exists with [isDecrypted = false]. *)
Theorem failed_decrypt_changes_nothing (env : Env) (messageId : string)
    (clear proof : bytes) (s s_rev : State) (e : Error) :
  decryptMessage env messageId clear proof s = Revert e s_rev ->
  s_rev = s /\
  transact (decryptMessage env messageId clear proof) s = s /\
  (e = Expired \/ e = InvalidProof \/ e = Abi_decode_reverted ->
     let s' := transact (decryptMessage env messageId clear proof) s in
     message_exists s' messageId = true /\
     isDecrypted (message_at s' messageId) = false /\
     message_at s' messageId = message_at s messageId).
Proof.
  intros Hrev. unfold transact. rewrite Hrev.
  split; [by eapply decryptMessage_Revert_inv|]. split; [done|].
  cbv zeta. intros He. revert Hrev.
  rewrite decryptMessage_ladder; cbv zeta. unfold message_exists.
  destruct (0 <? String.length _)%nat.
  - destruct (isDecrypted _); [|done].
    intros [= <- _]. by destruct He as [|[|]].
  - intros [= <- _]. by destruct He as [|[|]].
Qed.

(** C6.  For a record with [isBurnAfterReading = false] that is
    active and unexpired, [decryptMessage] with an accepted proof and
    decodable data returns; it sets [isDecrypted], stores the decoded
    integer in [decryptedContent] and emits
    [MessageDecrypted(messageId, decodedValue)], leaving every other
    field; [getMessage] then returns [isDecrypted = true] and that
    value. *)
Theorem decrypt_stores_clear_value (env : Env) (messageId : string)
    (clear proof : bytes) (s : State) (decodedValue : uint32) :
  let m := message_at s messageId in
  message_exists s messageId = true ->
  isBurnAfterReading m = false ->
  isDecrypted m = false ->
  (block_timestamp env <= expirationTime m)%Z ->
  checkSignatures [toBytes32 (encryptedContent m)] clear proof = true ->
  abi_decode_uint32 clear = Some decodedValue ->
  exists s',
    decryptMessage env messageId clear proof s = Ok tt s' /\
    isDecrypted (message_at s' messageId) = true /\
    decryptedContent (message_at s' messageId) = decodedValue /\
    message_at s' messageId = disclosed m decodedValue /\
    events s' = events s ++ [MessageDecrypted messageId decodedValue] /\
    getMessage messageId s' =
      Ok (expirationTime m, false, true, sender m, timestamp m, condition m,
          decodedValue) s'.
Proof.
  cbv zeta. unfold message_exists. intros Hex Hb Hd Ht Hp Hv.
  exists (after_decrypt s messageId decodedValue).
  rewrite decryptMessage_ladder; cbv zeta. rewrite Hex, Hd, Hp, Hv.
  apply Z.leb_le in Ht. rewrite Ht.
  rewrite getMessage_ladder; cbv zeta.
  rewrite message_at_after_decrypt_eq, Hb; simpl. rewrite Hex, Hb.
  repeat split; try done.
  unfold after_decrypt. by rewrite Hb.
Qed.

End Decrypt.

(** ** Properties of histories *)

Section Histories.

Context `{fhe : FHE}.

Lemma sendMessage_existing env messageId h p e b c s :
  message_exists s messageId = true ->
  sendMessage env messageId h p e b c s = Revert DuplicateId s.
Proof.
  unfold message_exists. intros Hex.
  by rewrite sendMessage_ladder, length_zero_not_pos, Hex.
Qed.

Lemma decryptMessage_missing env messageId clear proof s :
  message_exists s messageId = false ->
  decryptMessage env messageId clear proof s = Revert NotFound s.
Proof.
  unfold message_exists. intros Hex.
  by rewrite decryptMessage_ladder; cbv zeta; rewrite Hex.
Qed.

Lemma decryptMessage_disclosed env messageId clear proof s :
  message_exists s messageId = true ->
  isDecrypted (message_at s messageId) = true ->
  decryptMessage env messageId clear proof s = Revert AlreadyDecrypted s.
Proof.
  unfold message_exists. intros Hex Hd.
  by rewrite decryptMessage_ladder; cbv zeta; rewrite Hex, Hd.
Qed.

(** While the record exists no transaction changes its handle. *)
Lemma step_keeps_handle (tx : Env * Call) (s : State) (messageId : string) :
  message_exists s messageId = true ->
  message_exists (step tx s) messageId = true ->
  encryptedContent (message_at (step tx s) messageId) =
  encryptedContent (message_at s messageId).
Proof.
  intros Hex Hex'.
  destruct (decide (call_id (snd tx) = messageId)) as [Heq|Hne];
    [|by rewrite step_other_id].
  revert Hex'. destruct tx as [env [id h p e b c | id v p]];
    simpl in Heq; subst id; unfold step, transact; simpl.
  - by rewrite sendMessage_existing.
  - destruct (decryptMessage env messageId v p s) as [[] s'|] eqn:Hs; [|done].
    apply decryptMessage_Ok_inv in Hs as (_ & _ & _ & _ & v' & _ & ->).
    unfold message_exists. rewrite message_at_after_decrypt_eq.
    by destruct (isBurnAfterReading (message_at s messageId)).
Qed.

Lemma run_keeps_handle (txs : list (Env * Call)) (s : State) (messageId : string) :
  exists_throughout messageId txs s = true ->
  encryptedContent (message_at (run txs s) messageId) =
  encryptedContent (message_at s messageId).
Proof.
  revert s. induction txs as [|tx txs IH]; intros s; simpl; [done|].
  intros [Hex Hrest]%andb_true_iff.
  rewrite IH by done. apply step_keeps_handle; [done|].
  destruct txs; simpl in Hrest; by apply andb_true_iff in Hrest as [? _].
Qed.

Lemma exists_throughout_end (txs : list (Env * Call)) (s : State) (messageId : string) :
  exists_throughout messageId txs s = true ->
  message_exists (run txs s) messageId = true.
Proof.
  revert s. induction txs as [|tx txs IH]; intros s; simpl.
  - by intros [? _]%andb_true_iff.
  - intros [_ ?]%andb_true_iff. by apply IH.
Qed.

(** A disclosed record that was not burned is frozen. *)
Lemma step_keeps_disclosed (tx : Env * Call) (s : State) (messageId : string) :
  message_exists s messageId = true ->
  isDecrypted (message_at s messageId) = true ->
  message_at (step tx s) messageId = message_at s messageId.
Proof.
  intros Hex Hd.
  destruct (decide (call_id (snd tx) = messageId)) as [Heq|Hne];
    [|by rewrite step_other_id].
  destruct tx as [env [id h p e b c | id v p]];
    simpl in Heq; subst id; unfold step, transact; simpl.
  - by rewrite sendMessage_existing.
  - by rewrite decryptMessage_disclosed.
Qed.

Lemma run_keeps_disclosed (txs : list (Env * Call)) (s : State) (messageId : string) :
  message_exists s messageId = true ->
  isDecrypted (message_at s messageId) = true ->
  message_at (run txs s) messageId = message_at s messageId.
Proof.
  revert s. induction txs as [|tx txs IH]; intros s Hex Hd; simpl; [done|].
  pose proof (step_keeps_disclosed tx s messageId Hex Hd) as Hstep.
  rewrite IH; [done| |]; unfold message_exists in *; by rewrite Hstep.
Qed.

(** A missing record stays missing until a [sendMessage] for its id
    returns. *)
Lemma step_keeps_missing (tx : Env * Call) (s : State) (messageId : string) :
  message_exists s messageId = false ->
  creates messageId tx s = false ->
  message_at (step tx s) messageId = message_at s messageId.
Proof.
  intros Hex Hcr.
  destruct (decide (call_id (snd tx) = messageId)) as [Heq|Hne];
    [|by rewrite step_other_id].
  revert Hcr. destruct tx as [env [id h p e b c | id v p]];
    simpl in Heq; subst id; unfold creates, step, transact; simpl.
  - rewrite bool_decide_eq_true_2 by done; simpl.
    by destruct (sendMessage env messageId h p e b c s).
  - by rewrite decryptMessage_missing.
Qed.

Lemma run_keeps_missing (txs : list (Env * Call)) (s : State) (messageId : string) :
  message_exists s messageId = false ->
  never_created messageId txs s = true ->
  message_at (run txs s) messageId = message_at s messageId.
Proof.
  revert s. induction txs as [|tx txs IH]; intros s Hex; simpl; [done|].
  intros [Hcr Hrest]%andb_true_iff. apply negb_true_iff in Hcr.
  pose proof (step_keeps_missing tx s messageId Hex Hcr) as Hstep.
  rewrite IH; [done| |done]. unfold message_exists in *. by rewrite Hstep.
Qed.

(** [sendMessage] never looks at the condition it is given ... *)
Lemma sendMessage_ignores_condition env messageId h p e b c s :
  succeeds (sendMessage env messageId h p e b "" s) =
  succeeds (sendMessage env messageId h p e b c s).
Proof.
  rewrite !sendMessage_ladder.
  destruct (String.length _ =? 0)%nat; [|done].
  destruct (fromExternal _ _ _) as [h'|]; [|done].
  by destruct (isInitialized h').
Qed.

(** ... and the record it writes for an empty one does not exist for
    the rest of the contract. *)
Lemma empty_condition_unobservable env messageId h p e b s s' :
  sendMessage env messageId h p e b "" s = Ok tt s' ->
  message_exists s' messageId = false /\
  getMessage messageId s' = Revert NotFound s' /\
  forall env' clear proof,
    decryptMessage env' messageId clear proof s' = Revert NotFound s'.
Proof.
  intros Hsend. apply sendMessage_Ok_inv in Hsend as (_ & h' & _ & _ & ->).
  assert (message_exists (after_send s env messageId h' e b "") messageId = false)
    as Hex by (unfold message_exists; by rewrite message_at_after_send_eq).
  split; [done|]. split.
  - rewrite getMessage_ladder; cbv zeta. unfold message_exists in Hex. by rewrite Hex.
  - intros. by apply decryptMessage_missing.
Qed.

Lemma run_other_ids (txs : list (Env * Call)) (s : State) (messageId : string) :
  Forall (fun tx => call_id (snd tx) <> messageId) txs ->
  message_at (run txs s) messageId = message_at s messageId.
Proof.
  revert s. induction txs as [|tx txs IH]; intros s Hall; simpl; [done|].
  inversion Hall as [|? ? Hne Hrest]; subst.
  by rewrite IH, step_other_id.
Qed.




(** C7.  The handle [sendMessage] stores is never altered: after any
    history throughout which the record exists, [encryptedContent] is
    still the handle stored at creation, and [decryptMessage] returns
    only if the proof was accepted for that very handle. *)
Theorem ciphertext_handle_never_altered (env : Env) (messageId : string)
    (h : externalEuint32) (p : bytes) (e : uint256) (b : bool) (c : string)
    (s0 s1 : State) (txs : list (Env * Call)) :
  sendMessage env messageId h p e b c s0 = Ok tt s1 ->
  exists_throughout messageId txs s1 = true ->
  let s2 := run txs s1 in
  exists h',
    fromExternal (msg_sender env) h p = Some h' /\
    encryptedContent (message_at s1 messageId) = h' /\
    encryptedContent (message_at s2 messageId) = h' /\
    getEncryptedContent messageId s2 = Ok h' s2 /\
    forall env' clear proof s3,
      decryptMessage env' messageId clear proof s2 = Ok tt s3 ->
      checkSignatures [toBytes32 h'] clear proof = true.
Proof.
  intros Hsend Hex; cbv zeta.
  pose proof (run_keeps_handle _ _ _ Hex) as Hkeep.
  pose proof (exists_throughout_end _ _ _ Hex) as Hend.
  apply sendMessage_Ok_inv in Hsend as (_ & h' & Hh & _ & ->).
  rewrite message_at_after_send_eq in Hkeep; simpl in Hkeep.
  exists h'. split; [done|]. split; [by rewrite message_at_after_send_eq|].
  split; [done|]. split.
  - unfold getEncryptedContent, bind, read_message, require.
    unfold message_exists in Hend. rewrite Hend; simpl. by rewrite Hkeep.
  - intros env' clear proof s3 Hdec.
    apply decryptMessage_Ok_inv in Hdec as (_ & _ & _ & Hp & _).
    by rewrite Hkeep in Hp.
Qed.

(** What a burning [decryptMessage] leaves behind. *)
Lemma burn_outcome env messageId clear proof s s' :
  isBurnAfterReading (message_at s messageId) = true ->
  decryptMessage env messageId clear proof s = Ok tt s' ->
  message_at s' messageId = zero_message /\
  messageIds s' = messageIds s /\
  events s' = events s ++ [MessageBurned messageId].
Proof.
  intros Hb Hdec.
  apply decryptMessage_Ok_inv in Hdec as (_ & _ & _ & _ & v & _ & ->).
  rewrite message_at_after_decrypt_eq, messageIds_after_decrypt, Hb.
  unfold after_decrypt. by rewrite Hb.
Qed.

(** C1, as the contract has it.  After a burning decryption
    [getMessage] fails with [NotFound]; [getAllMessageIds] returns the
    array it returned before the decryption, in which the id is still
    listed. *)
Theorem burn_erases_record_keeps_id (env0 env1 : Env) (messageId : string)
    (h0 : externalEuint32) (p0 : bytes) (e0 : uint256) (c0 : string)
    (s0 s1 s2 : State) (txs : list (Env * Call)) (clear proof : bytes) :
  sendMessage env0 messageId h0 p0 e0 true c0 s0 = Ok tt s1 ->
  isBurnAfterReading (message_at (run txs s1) messageId) = true ->
  decryptMessage env1 messageId clear proof (run txs s1) = Ok tt s2 ->
  getMessage messageId s2 = Revert NotFound s2 /\
  getAllMessageIds s2 = Ok (messageIds (run txs s1)) s2 /\
  messageId ∈ messageIds s2 /\
  events s2 = events (run txs s1) ++ [MessageBurned messageId].
Proof.
  intros Hsend Hb Hdec.
  destruct (burn_outcome _ _ _ _ _ _ Hb Hdec) as (Hat & Hids & Hev).
  split; [by rewrite getMessage_ladder; cbv zeta; rewrite Hat|].
  split; [unfold getAllMessageIds; by rewrite Hids|].
  split; [|done].
  apply sendMessage_Ok_inv in Hsend as (_ & h' & _ & _ & ->).
  rewrite Hids. destruct (run_messageIds txs (after_send s0 env0 messageId h' e0 true c0))
    as [more ->].
  simpl. set_solver.
Qed.

(** C10.  Once its record has been burned an id is free again: a
    later [sendMessage] for it, with a well-formed ciphertext,
    returns, and pushes the id a second time, so that
    [getAllMessageIds] lists it twice. *)
Theorem burned_id_can_be_sent_again (env0 env1 env2 : Env) (messageId : string)
    (h0 h : externalEuint32) (p0 p : bytes) (e0 e : uint256) (b : bool)
    (c0 c : string) (s0 s1 s2 : State) (txs : list (Env * Call))
    (clear proof : bytes) (h' : euint32) :
  sendMessage env0 messageId h0 p0 e0 true c0 s0 = Ok tt s1 ->
  isBurnAfterReading (message_at (run txs s1) messageId) = true ->
  decryptMessage env1 messageId clear proof (run txs s1) = Ok tt s2 ->
  fromExternal (msg_sender env2) h p = Some h' ->
  isInitialized h' = true ->
  let s3 := after_send s2 env2 messageId h' e b c in
  message_exists s2 messageId = false /\
  sendMessage env2 messageId h p e b c s2 = Ok tt s3 /\
  message_at s3 messageId = fresh_message env2 h' e b c /\
  (exists more, messageIds s3 = messageIds s0 ++ messageId :: more ++ [messageId]) /\
  getAllMessageIds s3 = Ok (messageIds s3) s3 /\
  (2 <= count_occ string_dec (messageIds s3) messageId)%nat.
Proof.
  intros Hsend Hb Hdec Hh Hi; cbv zeta.
  destruct (burn_outcome _ _ _ _ _ _ Hb Hdec) as (Hat & Hids & _).
  assert (message_exists s2 messageId = false) as Hex
    by (unfold message_exists; by rewrite Hat).
  split; [done|]. split.
  { unfold message_exists in Hex.
    by rewrite sendMessage_ladder, length_zero_not_pos, Hex, Hh, Hi. }
  split; [by rewrite message_at_after_send_eq|].
  apply sendMessage_Ok_inv in Hsend as (_ & h1 & _ & _ & ->).
  destruct (run_messageIds txs (after_send s0 env0 messageId h1 e0 true c0))
    as [more Hmore].
  assert (messageIds (after_send s2 env2 messageId h' e b c)
          = messageIds s0 ++ messageId :: more ++ [messageId]) as Hall.
  { simpl. rewrite Hids, Hmore. simpl. by rewrite <- !app_assoc. }
  split; [by exists more|]. split; [done|].
  rewrite Hall, count_occ_app; simpl.
  destruct (string_dec messageId messageId); [|done].
  rewrite count_occ_app; simpl.
  destruct (string_dec messageId messageId); [|done]. lia.
Qed.

(** C2, as the contract has it.  After a returning [decryptMessage]:
    if the record was not burn-after-read, then after every later
    history the record is the one that decryption left, disclosed
    and in existence, and [decryptMessage] fails with
    [AlreadyDecrypted]; if it was burned, then after every later
    history in which no [sendMessage] for the id returns, the record
    is absent and [decryptMessage] fails with [NotFound]. *)
Theorem decrypt_at_most_once (env : Env) (messageId : string)
    (clear proof : bytes) (s s1 : State) :
  decryptMessage env messageId clear proof s = Ok tt s1 ->
  (isBurnAfterReading (message_at s messageId) = false ->
   forall txs env' clear' proof',
     let s2 := run txs s1 in
     decryptMessage env' messageId clear' proof' s2 = Revert AlreadyDecrypted s2 /\
     message_at s2 messageId = message_at s1 messageId /\
     message_exists s2 messageId = true /\
     isDecrypted (message_at s2 messageId) = true /\
     Some (decryptedContent (message_at s2 messageId)) = abi_decode_uint32 clear) /\
  (isBurnAfterReading (message_at s messageId) = true ->
   forall txs env' clear' proof',
     never_created messageId txs s1 = true ->
     let s2 := run txs s1 in
     decryptMessage env' messageId clear' proof' s2 = Revert NotFound s2 /\
     message_exists s2 messageId = false).
Proof.
  intros Hdec. split; intros Hb txs env' clear' proof'; cbv zeta.
  - apply decryptMessage_Ok_inv in Hdec as (Hex & _ & _ & _ & v & Hv & ->).
    pose proof (message_at_after_decrypt_eq s messageId v) as Hat.
    rewrite Hb in Hat.
    assert (message_exists (after_decrypt s messageId v) messageId = true) as Hex1
      by (unfold message_exists in *; by rewrite Hat).
    assert (isDecrypted (message_at (after_decrypt s messageId v) messageId) = true)
      as Hd1 by (by rewrite Hat).
    pose proof (run_keeps_disclosed txs _ _ Hex1 Hd1) as Hrun.
    assert (message_exists (run txs (after_decrypt s messageId v)) messageId = true)
      as Hex2 by (unfold message_exists in *; by rewrite Hrun).
    split; [apply decryptMessage_disclosed; [done|by rewrite Hrun]|].
    split; [done|]. split; [done|]. rewrite Hrun. split; [done|].
    by rewrite Hat, Hv.
  - intros Hnever.
    destruct (burn_outcome _ _ _ _ _ _ Hb Hdec) as (Hat & _ & _).
    assert (message_exists s1 messageId = false) as Hex1
      by (unfold message_exists; by rewrite Hat).
    pose proof (run_keeps_missing txs _ _ Hex1 Hnever) as Hrun.
    assert (message_exists (run txs s1) messageId = false) as Hex2
      by (unfold message_exists in *; by rewrite Hrun).
    split; [by apply decryptMessage_missing|done].
Qed.

End Histories.

(** ** The scenarios, run on the test double *)

Section Scenarios.

Import Double.

Example scenario_sent :
  messageIds sent = ["m1"] /\ events sent = [MessageSent "m1" alice] /\
  message_at sent "m1" =
    fresh_message (at_time alice T) handle (T + 3600) false "after noon".
Proof. by vm_compute. Qed.

Example scenario_decrypted :
  events decrypted = [MessageSent "m1" alice; MessageDecrypted "m1" 42] /\
  getMessage "m1" decrypted =
    Ok ((T + 3600)%Z, false, true, alice, T, "after noon", 42%Z) decrypted.
Proof. by vm_compute. Qed.

Example scenario_burned :
  events burned = [MessageSent "m1" alice; MessageBurned "m1"] /\
  getMessage "m1" burned = Revert NotFound burned /\
  getAllMessageIds burned = Ok ["m1"] burned.
Proof. by vm_compute. Qed.

(** At the deadline [T + 3600] the call is not [Expired]; one second
    later it is, with the proof the verifier accepts. *)
Lemma expiration_boundary_witness :
  (forall s', decryptMessage (fhe := fhe) (at_time bob (T + 3600)) "m1" clear42 proof42 sent
              <> Revert Expired s') /\
  decryptMessage (fhe := fhe) (at_time bob (T + 3601)) "m1" clear42 proof42 sent
    = Revert Expired sent.
Proof.
  split.
  - destruct (expiration_boundary (fhe := fhe) (at_time bob (T + 3600)) "m1"
                clear42 proof42 sent) as [Hat _]; [by vm_compute ..|].
    destruct Hat as [Hne _]; [by vm_compute|]. exact Hne.
  - destruct (expiration_boundary (fhe := fhe) (at_time bob (T + 3601)) "m1"
                clear42 proof42 sent) as [_ Hlate]; [by vm_compute ..|].
    apply Hlate. by vm_compute.
Defined.

(** The expired call of the scenario leaves ["m1"] as it was. *)
Lemma failed_decrypt_changes_nothing_witness :
  step (fhe := fhe) (decrypt_m1 (T + 3601)) sent = sent /\
  message_exists sent "m1" = true /\
  isDecrypted (message_at sent "m1") = false.
Proof.
  destruct (failed_decrypt_changes_nothing (fhe := fhe) (at_time bob (T + 3601)) "m1"
              clear42 proof42 sent sent Expired) as (_ & Hkeep & Hrec);
    [by vm_compute|].
  split; [exact Hkeep|].
  destruct Hrec as (Hex & Hd & _); [by left|].
  unfold step, decrypt_m1 in *; simpl in *.
  rewrite Hkeep in Hex, Hd. by split.
Defined.

(** The first scenario: ["m1"] decrypted to 42 at [T + 10]. *)
Lemma decrypt_stores_clear_value_witness :
  exists s',
    decryptMessage (fhe := fhe) (at_time bob (T + 10)) "m1" clear42 proof42 sent = Ok tt s' /\
    isDecrypted (message_at s' "m1") = true /\
    decryptedContent (message_at s' "m1") = 42%Z /\
    events s' = events sent ++ [MessageDecrypted "m1" 42].
Proof.
  destruct (decrypt_stores_clear_value (fhe := fhe) (at_time bob (T + 10)) "m1"
              clear42 proof42 sent 42)
    as (s' & Hdec & Hd & Hv & _ & Hev & _); [by vm_compute ..|].
  exists s'. by repeat split.
Defined.



(** The other way the record changes between two sends: a decryption
    that does not burn sets [isDecrypted] and [decryptedContent]. *)
Example second_create_after_decrypt :
  let second := sendMessage (fhe := fhe) (at_time bob (T + 20)) "m1" 13 inputProof
                  (T + 99) false "again" in
  second decrypted = Revert DuplicateId decrypted /\
  message_at (transact second decrypted) "m1" =
    disclosed (fresh_message (at_time alice T) handle (T + 3600) false "after noon") 42.
Proof. by vm_compute. Qed.

(** The handle of ["m1"] after ["m2"] was sent and ["m1"] decrypted. *)
Lemma ciphertext_handle_never_altered_witness :
  encryptedContent
    (message_at (run (fhe := fhe) [send_m2; decrypt_m1 (T + 10)] sent) "m1") = handle.
Proof.
  destruct (ciphertext_handle_never_altered (fhe := fhe) (at_time alice T) "m1" handle
              inputProof (T + 3600) false "after noon" empty_state sent
              [send_m2; decrypt_m1 (T + 10)])
    as (h' & Hh & _ & Hkeep & _); [by vm_compute ..|].
  vm_compute in Hh. injection Hh as <-. exact Hkeep.
Defined.

(** After the burn ["m1"] is unreadable and still listed. *)
Lemma burn_erases_record_keeps_id_witness :
  getMessage "m1" burned = Revert NotFound burned /\ "m1" ∈ messageIds burned.
Proof.
  destruct (burn_erases_record_keeps_id (fhe := fhe) (at_time alice T) (at_time bob (T + 10))
              "m1" handle inputProof (T + 3600) "after noon" empty_state sent_burn
              burned [] clear42 proof42)
    as (Hget & _ & Hin & _); [by vm_compute ..|].
  by split.
Defined.

(** C1, refuted as stated: after the burn of ["m1"] the id array still
    holds ["m1"]. *)
Lemma burned_id_still_listed :
  ~ (forall s2,
       decryptMessage (fhe := fhe) (at_time bob (T + 10)) "m1" clear42 proof42 sent_burn
         = Ok tt s2 ->
       getMessage "m1" s2 = Revert NotFound s2 /\
       forall ids s3, getAllMessageIds s2 = Ok ids s3 -> "m1" ∉ ids).
Proof.
  intros Hclaim.
  destruct (Hclaim burned) as [_ Hlist]; [by vm_compute|].
  apply (Hlist ["m1"] burned); [by vm_compute|]. by left.
Qed.

(** ["m1"], burned, is sent again and listed twice. *)
Lemma burned_id_can_be_sent_again_witness :
  let s3 := after_send burned (at_time bob (T + 20)) "m1" 13 (T + 99) false "again" in
  sendMessage (fhe := fhe) (at_time bob (T + 20)) "m1" 13 inputProof (T + 99) false "again"
    burned = Ok tt s3 /\
  getAllMessageIds s3 = Ok ["m1"; "m1"] s3.
Proof.
  cbv zeta.
  destruct (burned_id_can_be_sent_again (fhe := fhe) (at_time alice T)
              (at_time bob (T + 10)) (at_time bob (T + 20)) "m1" handle 13
              inputProof inputProof (T + 3600) (T + 99) false "after noon" "again"
              empty_state sent_burn burned [] clear42 proof42 13)
    as (_ & Hsend & _ & _ & Hlist & _); [by vm_compute ..|].
  split; [exact Hsend|]. rewrite Hlist. by vm_compute.
Defined.

(** ["m1"], kept, is decrypted once; ["m1"], burned, is gone while
    nobody sends it again. *)
Lemma decrypt_at_most_once_witness :
  (let s2 := run (fhe := fhe) [send_m2; send_m1 true] decrypted in
   decryptMessage (fhe := fhe) (at_time alice (T + 30)) "m1" clear42 proof42 s2
     = Revert AlreadyDecrypted s2 /\
   decryptedContent (message_at s2 "m1") = 42%Z) /\
  (let s2 := run (fhe := fhe) [send_m2; decrypt_m1 (T + 20)] burned in
   decryptMessage (fhe := fhe) (at_time alice (T + 30)) "m1" clear42 proof42 s2
     = Revert NotFound s2).
Proof.
  cbv zeta. split.
  - destruct (decrypt_at_most_once (fhe := fhe) (at_time bob (T + 10)) "m1"
                clear42 proof42 sent decrypted) as [Hkept _]; [by vm_compute|].
    destruct (Hkept ltac:(by vm_compute) [send_m2; send_m1 true]
                (at_time alice (T + 30)) clear42 proof42)
      as (Hagain & _ & _ & _ & Hv).
    split; [exact Hagain|].
    replace (abi_decode_uint32 clear42) with (Some 42%Z) in Hv by (by vm_compute).
    by apply (inj Some).
  - destruct (decrypt_at_most_once (fhe := fhe) (at_time bob (T + 10)) "m1"
                clear42 proof42 sent_burn burned) as [_ Hgone]; [by vm_compute|].
    destruct (Hgone ltac:(by vm_compute) [send_m2; decrypt_m1 (T + 20)]
                (at_time alice (T + 30)) clear42 proof42 ltac:(by vm_compute))
      as [Hagain _].
    exact Hagain.
Defined.

(** C2, refuted as stated: ["m1"], burned and sent again, is decrypted
    a second time. *)
Lemma burned_id_decrypted_twice :
  ~ (forall s1,
       decryptMessage (fhe := fhe) (at_time bob (T + 10)) "m1" clear42 proof42 sent_burn
         = Ok tt s1 ->
       forall txs env clear proof,
         succeeds (decryptMessage (fhe := fhe) env "m1" clear proof (run (fhe := fhe) txs s1))
         = false).
Proof.
  intros Hclaim.
  specialize (Hclaim burned ltac:(by vm_compute) [send_m1 true]
                (at_time bob (T + 20)) clear42 proof42).
  by vm_compute in Hclaim.
Qed.

(** C9, on the contract: [sendMessage] with an empty condition
    returns, lists the id and emits [MessageSent]; the record it wrote
    is one that [getMessage] and [decryptMessage] report as not
    existing, and a second [sendMessage] for the same id returns
    too. *)
Theorem empty_condition_is_accepted :
  let first := sendMessage (fhe := fhe) (at_time alice T) "m1" handle inputProof
                 (T + 3600) false "" in
  let s := transact first empty_state in
  succeeds (first empty_state) = true /\
  messageIds s = ["m1"] /\
  events s = [MessageSent "m1" alice] /\
  encryptedContent (message_at s "m1") = handle /\
  getMessage "m1" s = Revert NotFound s /\
  decryptMessage (fhe := fhe) (at_time bob (T + 10)) "m1" clear42 proof42 s
    = Revert NotFound s /\
  succeeds (sendMessage (fhe := fhe) (at_time bob (T + 20)) "m1" 13 inputProof
              (T + 99) true "" s) = true.
Proof. by vm_compute. Qed.

End Scenarios.


(** ** [sendMessage]: failures and the record it writes *)

Section Send.

Context `{fhe : FHE}.

(** [sendMessage] decides its failures in the order id, input proof,
    handle: a taken id fails with [DuplicateId] whatever the ciphertext;
    for a free id a rejected input proof is the library's revert, and an
    uninitialized handle is [MalformedCiphertext].  Every failure is
    raised before the first write. *)
Theorem send_failure_priority (env : Env) (messageId : string)
    (h : externalEuint32) (p : bytes) (e : uint256) (b : bool) (c : string)
    (s : State) :
  let outcome := sendMessage env messageId h p e b c s in
  (message_exists s messageId = true -> outcome = Revert DuplicateId s) /\
  (message_exists s messageId = false ->
     fromExternal (msg_sender env) h p = None ->
     outcome = Revert FHE_fromExternal_reverted s) /\
  (message_exists s messageId = false ->
     forall h', fromExternal (msg_sender env) h p = Some h' ->
                isInitialized h' = false ->
                outcome = Revert MalformedCiphertext s) /\
  (forall err s', outcome = Revert err s' ->
     s' = s /\ transact (sendMessage env messageId h p e b c) s = s).
Proof.
  cbv zeta. split; [|split; [|split]].
  - apply sendMessage_existing.
  - unfold message_exists. intros Hex Hh.
    by rewrite sendMessage_ladder, length_zero_not_pos, Hex, Hh.
  - unfold message_exists. intros Hex h' Hh Hi.
    by rewrite sendMessage_ladder, length_zero_not_pos, Hex, Hh, Hi.
  - intros err s' Hrev. unfold transact. rewrite Hrev.
    split; [by eapply sendMessage_Revert_inv|done].
Qed.

(** For a free id and a well-formed ciphertext [sendMessage] returns;
    the record then read back by [getMessage] and [getEncryptedContent]
    holds the arguments, the caller, the block time, [isDecrypted =
    false] and a zero clear value; the id is pushed last, one
    [MessageSent] is emitted and the handle is allowed and made
    publicly decryptable. *)
Theorem send_then_read (env : Env) (messageId : string)
    (h : externalEuint32) (p : bytes) (e : uint256) (b : bool) (c : string)
    (s : State) (h' : euint32) :
  message_exists s messageId = false ->
  fromExternal (msg_sender env) h p = Some h' ->
  isInitialized h' = true ->
  c <> "" ->
  exists s',
    sendMessage env messageId h p e b c s = Ok tt s' /\
    getMessage messageId s' =
      Ok (e, b, false, msg_sender env, block_timestamp env, c, 0%Z) s' /\
    getEncryptedContent messageId s' = Ok h' s' /\
    messageIds s' = messageIds s ++ [messageId] /\
    events s' = events s ++ [MessageSent messageId (msg_sender env)] /\
    acl_calls s' = acl_calls s ++ [AllowThis h'; MakePubliclyDecryptable h'].
Proof.
  unfold message_exists. intros Hex Hh Hi Hc.
  exists (after_send s env messageId h' e b c).
  split; [by rewrite sendMessage_ladder, length_zero_not_pos, Hex, Hh, Hi|].
  apply length_pos_nonempty in Hc.
  split.
  { rewrite getMessage_ladder; cbv zeta.
    rewrite message_at_after_send_eq; simpl. by rewrite Hc. }
  split; [|by repeat split].
  unfold getEncryptedContent, bind, read_message.
  rewrite message_at_after_send_eq. cbn [condition fresh_message encryptedContent].
  rewrite Hc; simpl. by rewrite message_at_after_send_eq.
Qed.

(** [decryptMessage] never reads [msg.sender]: at a given block time
    its outcome is the same for every caller. *)
Theorem decrypt_ignores_caller (caller1 caller2 : address) (now : uint256)
    (messageId : string) (clear proof : bytes) (s : State) :
  decryptMessage {| msg_sender := caller1; block_timestamp := now |}
    messageId clear proof s =
  decryptMessage {| msg_sender := caller2; block_timestamp := now |}
    messageId clear proof s.
Proof. by rewrite !decryptMessage_ladder. Qed.

(** The three functions that test the existence sentinel agree:
    [getMessage] and [getEncryptedContent] return (the stored handle,
    for the latter) exactly when the record exists, and exactly then
    [decryptMessage] does not fail with [NotFound]; a view leaves the
    state as it is. *)
Theorem not_found_agreement (env : Env) (messageId : string)
    (clear proof : bytes) (s : State) :
  let m := message_at s messageId in
  getMessage messageId s =
    (if message_exists s messageId
     then Ok (expirationTime m, isBurnAfterReading m, isDecrypted m, sender m,
              timestamp m, condition m, decryptedContent m) s
     else Revert NotFound s) /\
  getEncryptedContent messageId s =
    (if message_exists s messageId then Ok (encryptedContent m) s
     else Revert NotFound s) /\
  (message_exists s messageId = false <->
   decryptMessage env messageId clear proof s = Revert NotFound s).
Proof.
  cbv zeta. split; [apply getMessage_ladder|]. split.
  - unfold getEncryptedContent, bind, read_message, require, message_exists.
    by destruct (0 <? String.length _)%nat.
  - split; [apply decryptMessage_missing|].
    rewrite decryptMessage_ladder; cbv zeta. unfold message_exists.
    destruct (0 <? String.length _)%nat; [|done].
    destruct (isDecrypted _); [done|].
    destruct (_ <=? _)%Z; [|done].
    destruct (checkSignatures _ _ _); [|done].
    by destruct (abi_decode_uint32 clear).
Qed.

(** Data shorter than one 32-byte word is never decrypted, whatever the
    proof and the verifier's verdict: the call reverts and the record
    stays as it was. *)
Theorem decrypt_rejects_short_data (env : Env) (messageId : string)
    (clear proof : bytes) (s : State) :
  (length clear < 32)%nat ->
  succeeds (decryptMessage env messageId clear proof s) = false /\
  transact (decryptMessage env messageId clear proof) s = s.
Proof.
  intros Hlen.
  assert (abi_decode_uint32 clear = None) as Hnone.
  { unfold abi_decode_uint32.
    by destruct (Nat.ltb_spec (length clear) 32); [|lia]. }
  unfold transact. rewrite decryptMessage_ladder; cbv zeta. rewrite Hnone.
  repeat match goal with
         | |- context [if ?b then _ else _] => destruct b
         end; done.
Qed.

(** A burning decryption leaves no clear value in storage: the value
    written to [decryptedContent] is deleted with the record, so the
    mapping after the call is the mapping before it with the id's slot
    cleared, the id array is untouched, and two accepted decryptions of
    the same burn-after-read record with different data leave the same
    storage. *)
Theorem burn_leaves_no_value_in_storage (env1 env2 : Env) (messageId : string)
    (clear1 proof1 clear2 proof2 : bytes) (s s1 s2 : State) :
  isBurnAfterReading (message_at s messageId) = true ->
  decryptMessage env1 messageId clear1 proof1 s = Ok tt s1 ->
  decryptMessage env2 messageId clear2 proof2 s = Ok tt s2 ->
  encryptedMessages s1 = delete messageId (encryptedMessages s) /\
  encryptedMessages s1 = encryptedMessages s2 /\
  messageIds s1 = messageIds s /\
  messageIds s1 = messageIds s2 /\
  message_at s1 messageId = zero_message.
Proof.
  intros Hb Hd1 Hd2.
  apply decryptMessage_Ok_inv in Hd1 as (_ & _ & _ & _ & v1 & _ & ->).
  apply decryptMessage_Ok_inv in Hd2 as (_ & _ & _ & _ & v2 & _ & ->).
  rewrite message_at_after_decrypt_eq. unfold after_decrypt. by rewrite Hb.
Qed.

End Send.

(** ** Invariants of the ledger *)

Section Invariants.

Context `{fhe : FHE}.

Lemma be_value_nonneg (data : bytes) : (0 <= be_value data)%Z.
Proof.
  unfold be_value.
  assert (forall acc, (0 <= acc)%Z ->
            (0 <= fold_left (fun acc b => acc * 256 + Z.of_N (Byte.to_N b)) data acc)%Z)
    as Hgen.
  { induction data as [|b data IH]; intros acc Hacc; simpl; [done|].
    apply IH. lia. }
  by apply Hgen.
Qed.

Lemma abi_decode_uint32_range (data : bytes) (v : uint32) :
  abi_decode_uint32 data = Some v -> (0 <= v < 2 ^ 32)%Z.
Proof.
  unfold abi_decode_uint32. destruct (length data <? 32)%nat; [done|].
  destruct (Z.ltb_spec (be_value (take 32 data)) (2 ^ 32)); [|done].
  intros [= <-]. split; [apply be_value_nonneg|done].
Qed.

(** What holds of every state the contract can reach. *)
Record wf_state (s : State) : Prop := {
  wf_listed : forall messageId, message_exists s messageId = true ->
    messageId ∈ messageIds s /\
    MessageSent messageId (sender (message_at s messageId)) ∈ events s;
  wf_handle : forall messageId, message_exists s messageId = true ->
    isInitialized (encryptedContent (message_at s messageId)) = true /\
    AllowThis (encryptedContent (message_at s messageId)) ∈ acl_calls s /\
    MakePubliclyDecryptable (encryptedContent (message_at s messageId)) ∈ acl_calls s;
  wf_flag : forall messageId, isDecrypted (message_at s messageId) = true ->
    message_exists s messageId = true /\
    isBurnAfterReading (message_at s messageId) = false /\
    MessageDecrypted messageId (decryptedContent (message_at s messageId)) ∈ events s;
  wf_event : forall messageId v, MessageDecrypted messageId v ∈ events s ->
    isDecrypted (message_at s messageId) = true /\
    decryptedContent (message_at s messageId) = v;
  wf_value : forall messageId,
    (0 <= decryptedContent (message_at s messageId) < 2 ^ 32)%Z /\
    (isDecrypted (message_at s messageId) = false ->
     decryptedContent (message_at s messageId) = 0%Z);
  wf_ids : messageIds s = sent_ids (events s)
}.

Lemma message_at_empty (messageId : string) :
  message_at empty_state messageId = zero_message.
Proof. unfold message_at; simpl. by rewrite lookup_empty. Qed.

Lemma wf_empty : wf_state empty_state.
Proof.
  split; try done; intros messageId; unfold message_exists;
    rewrite ?message_at_empty; try done.
  intros v Hin. by apply elem_of_nil in Hin.
Qed.

Lemma sent_ids_snoc (evs : list Event) (ev : Event) :
  sent_ids (evs ++ [ev]) =
  sent_ids evs ++ match ev with MessageSent messageId _ => [messageId] | _ => [] end.
Proof. unfold sent_ids. rewrite omap_app. by destruct ev. Qed.

Lemma wf_after_send s env messageId h e b c :
  wf_state s ->
  message_exists s messageId = false ->
  isInitialized h = true ->
  wf_state (after_send s env messageId h e b c).
Proof.
  intros [Hl Hh Hf He Hv Hi] Hfree Hinit.
  assert (isDecrypted (message_at s messageId) = false) as Hnd.
  { destruct (isDecrypted (message_at s messageId)) eqn:Hd; [|done].
    apply Hf in Hd as [Hex _]. congruence. }
  split.
  - intros id. unfold message_exists.
    destruct (decide (messageId = id)) as [<-|Hne].
    + rewrite message_at_after_send_eq; simpl. intros _.
      split; apply elem_of_app; right; by left.
    + rewrite message_at_after_send_ne by done. intros [? ?]%Hl.
      split; apply elem_of_app; by left.
  - intros id. unfold message_exists.
    destruct (decide (messageId = id)) as [<-|Hne].
    + rewrite message_at_after_send_eq; simpl. intros _.
      split; [done|]. split; apply elem_of_app; right; [by left|by right; left].
    + rewrite message_at_after_send_ne by done. intros (? & ? & ?)%Hh.
      split; [done|]. split; apply elem_of_app; by left.
  - intros id. unfold message_exists.
    destruct (decide (messageId = id)) as [<-|Hne].
    + by rewrite message_at_after_send_eq.
    + rewrite message_at_after_send_ne by done. intros (? & ? & ?)%Hf.
      split; [done|]. split; [done|]. apply elem_of_app; by left.
  - intros id v [Hold|Hnew%list_elem_of_singleton]%elem_of_app; [|done].
    destruct (decide (messageId = id)) as [<-|Hne].
    + apply He in Hold as [Hd _]. congruence.
    + rewrite message_at_after_send_ne by done. by apply He.
  - intros id. destruct (decide (messageId = id)) as [<-|Hne].
    + rewrite message_at_after_send_eq; simpl. split; [lia|done].
    + rewrite message_at_after_send_ne by done. apply Hv.
  - simpl. by rewrite sent_ids_snoc, Hi.
Qed.

Lemma wf_after_decrypt s messageId v :
  wf_state s ->
  message_exists s messageId = true ->
  isDecrypted (message_at s messageId) = false ->
  (0 <= v < 2 ^ 32)%Z ->
  wf_state (after_decrypt s messageId v).
Proof.
  intros [Hl Hh Hf He Hv Hi] Hex Hnd Hrange.
  assert (events (after_decrypt s messageId v) =
          events s ++ [if isBurnAfterReading (message_at s messageId)
                       then MessageBurned messageId
                       else MessageDecrypted messageId v]) as Hev
    by (unfold after_decrypt; by destruct (isBurnAfterReading _)).
  assert (acl_calls (after_decrypt s messageId v) = acl_calls s) as Hacl
    by (unfold after_decrypt; by destruct (isBurnAfterReading _)).
  split.
  - intros id. unfold message_exists. rewrite messageIds_after_decrypt, Hev.
    destruct (decide (messageId = id)) as [<-|Hne].
    + rewrite message_at_after_decrypt_eq.
      destruct (isBurnAfterReading (message_at s messageId)) eqn:Hb; [done|]; simpl.
      intros [? ?]%Hl. split; [done|]. apply elem_of_app; by left.
    + rewrite message_at_after_decrypt_ne by done. intros [? ?]%Hl.
      split; [done|]. apply elem_of_app; by left.
  - intros id. unfold message_exists. rewrite Hacl.
    destruct (decide (messageId = id)) as [<-|Hne].
    + rewrite message_at_after_decrypt_eq.
      destruct (isBurnAfterReading (message_at s messageId)) eqn:Hb; [done|]; simpl.
      apply Hh.
    + rewrite message_at_after_decrypt_ne by done. apply Hh.
  - intros id. unfold message_exists. rewrite Hev.
    destruct (decide (messageId = id)) as [<-|Hne].
    + rewrite message_at_after_decrypt_eq.
      destruct (isBurnAfterReading (message_at s messageId)) eqn:Hb; [done|]; simpl.
      intros _. split; [done|]. split; [done|]. apply elem_of_app; right; by left.
    + rewrite message_at_after_decrypt_ne by done. intros (? & ? & ?)%Hf.
      split; [done|]. split; [done|]. apply elem_of_app; by left.
  - intros id v0. rewrite Hev.
    intros [Hold|Hnew%list_elem_of_singleton]%elem_of_app.
    + destruct (decide (messageId = id)) as [<-|Hne].
      * apply He in Hold as [Hd _]. congruence.
      * rewrite message_at_after_decrypt_ne by done. by apply He.
    + destruct (isBurnAfterReading (message_at s messageId)) eqn:Hb; [done|].
      injection Hnew as <- <-.
      by rewrite message_at_after_decrypt_eq, Hb.
  - intros id. destruct (decide (messageId = id)) as [<-|Hne].
    + rewrite message_at_after_decrypt_eq.
      destruct (isBurnAfterReading (message_at s messageId)); simpl;
        [split; [lia|done]|done].
    + rewrite message_at_after_decrypt_ne by done. apply Hv.
  - rewrite messageIds_after_decrypt, Hev, sent_ids_snoc, Hi.
    destruct (isBurnAfterReading _); by rewrite app_nil_r.
Qed.

Lemma wf_step (tx : Env * Call) (s : State) : wf_state s -> wf_state (step tx s).
Proof.
  intros Hwf. destruct tx as [env [id h p e b c | id v p]]; unfold step, transact; simpl.
  - destruct (sendMessage env id h p e b c s) as [[] s'|] eqn:Hs; [|done].
    apply sendMessage_Ok_inv in Hs as (Hfree & h' & _ & Hinit & ->).
    by apply wf_after_send.
  - destruct (decryptMessage env id v p s) as [[] s'|] eqn:Hs; [|done].
    apply decryptMessage_Ok_inv in Hs as (Hex & Hnd & _ & _ & v' & Hv & ->).
    apply wf_after_decrypt; [done..|]. by eapply abi_decode_uint32_range.
Qed.

Lemma wf_run (txs : list (Env * Call)) (s : State) :
  wf_state s -> wf_state (run txs s).
Proof.
  revert s. induction txs as [|tx txs IH]; intros s Hwf; simpl; [done|].
  by apply IH, wf_step.
Qed.

Lemma wf_reachable (txs : list (Env * Call)) : wf_state (run txs empty_state).
Proof. apply wf_run, wf_empty. Qed.

End Invariants.

(** ** What holds of reachable states and of histories *)

Section Reachable.

Context `{fhe : FHE}.

(** On a ledger that started empty, [messageIds] is the list of the ids
    of the [MessageSent] events, in the order they were emitted: one
    entry per returning [sendMessage], nothing else. *)
Theorem messageIds_mirror_sent_events (txs : list (Env * Call)) :
  let s := run txs empty_state in
  getAllMessageIds s = Ok (sent_ids (events s)) s.
Proof.
  cbv zeta. unfold getAllMessageIds.
  by rewrite (wf_ids _ (wf_reachable txs)).
Qed.

(** On a ledger that started empty, every record that exists is listed
    by [getAllMessageIds] and was announced by a [MessageSent] event
    naming the sender the record stores. *)
Theorem existing_record_is_listed (txs : list (Env * Call)) (messageId : string) :
  let s := run txs empty_state in
  message_exists s messageId = true ->
  messageId ∈ messageIds s /\
  MessageSent messageId (sender (message_at s messageId)) ∈ events s.
Proof. cbv zeta. apply (wf_listed _ (wf_reachable txs)). Qed.

(** On a ledger that started empty, the handle of every record that
    exists is initialized, and the contract has allowed itself on it
    and made it publicly decryptable. *)
Theorem existing_handle_is_public (txs : list (Env * Call)) (messageId : string) :
  let s := run txs empty_state in
  let h := encryptedContent (message_at s messageId) in
  message_exists s messageId = true ->
  isInitialized h = true /\
  AllowThis h ∈ acl_calls s /\
  MakePubliclyDecryptable h ∈ acl_calls s.
Proof. cbv zeta. apply (wf_handle _ (wf_reachable txs)). Qed.

(** On a ledger that started empty, a stored [isDecrypted = true]
    belongs to a record that exists, is not burn-after-read, and whose
    stored clear value was emitted in a [MessageDecrypted] event. *)
Theorem decrypted_flag_has_event (txs : list (Env * Call)) (messageId : string) :
  let s := run txs empty_state in
  let m := message_at s messageId in
  isDecrypted m = true ->
  message_exists s messageId = true /\
  isBurnAfterReading m = false /\
  MessageDecrypted messageId (decryptedContent m) ∈ events s.
Proof. cbv zeta. apply (wf_flag _ (wf_reachable txs)). Qed.

(** On a ledger that started empty, a [MessageDecrypted(id, v)] event
    in the log stays true: [getMessage(id)] returns [isDecrypted = true]
    and the clear value [v]; hence the log never holds two such events
    for one id with different values. *)
Theorem decrypted_event_is_permanent (txs : list (Env * Call))
    (messageId : string) (v : uint32) :
  let s := run txs empty_state in
  let m := message_at s messageId in
  MessageDecrypted messageId v ∈ events s ->
  getMessage messageId s =
    Ok (expirationTime m, false, true, sender m, timestamp m, condition m, v) s /\
  forall v', MessageDecrypted messageId v' ∈ events s -> v' = v.
Proof.
  cbv zeta. intros Hin.
  pose proof (wf_reachable txs) as Hwf.
  destruct (wf_event _ Hwf _ _ Hin) as [Hd Hv].
  destruct (wf_flag _ Hwf _ Hd) as (Hex & Hb & _).
  split.
  - rewrite getMessage_ladder; cbv zeta. unfold message_exists in Hex.
    by rewrite Hex, Hd, Hb, Hv.
  - intros v' Hin'. destruct (wf_event _ Hwf _ _ Hin') as [_ Hv']. congruence.
Qed.

(** On a ledger that started empty, every stored clear value fits
    [uint32], and it is zero for as long as [isDecrypted] is false. *)
Theorem clear_value_fits_uint32 (txs : list (Env * Call)) (messageId : string) :
  let m := message_at (run txs empty_state) messageId in
  (0 <= decryptedContent m < 2 ^ 32)%Z /\
  (isDecrypted m = false -> decryptedContent m = 0%Z).
Proof. cbv zeta. apply (wf_value _ (wf_reachable txs)). Qed.

(** A history of transactions that name other ids leaves a record, and
    whether it exists, untouched. *)
Theorem other_records_untouched (txs : list (Env * Call)) (s : State)
    (messageId : string) :
  Forall (fun tx => call_id (snd tx) <> messageId) txs ->
  message_at (run txs s) messageId = message_at s messageId /\
  message_exists (run txs s) messageId = message_exists s messageId.
Proof.
  intros Hall. unfold message_exists. by rewrite run_other_ids.
Qed.

(** [messageIds] is append-only: an index that holds an id holds it
    after every later history, and the array never shrinks. *)
Theorem messageIds_index_stable (txs : list (Env * Call)) (s : State)
    (i : nat) (messageId : string) :
  messageIds s !! i = Some messageId ->
  messageIds (run txs s) !! i = Some messageId /\
  (length (messageIds s) <= length (messageIds (run txs s)))%nat.
Proof.
  intros Hi. destruct (run_messageIds txs s) as [more ->].
  split; [by apply lookup_app_l_Some|]. rewrite length_app. lia.
Qed.

Lemma step_keeps_creation_fields (tx : Env * Call) (s : State) (messageId : string) :
  message_exists s messageId = true ->
  message_exists (step tx s) messageId = true ->
  creation_fields (message_at (step tx s) messageId) =
  creation_fields (message_at s messageId).
Proof.
  intros Hex Hex'.
  destruct (decide (call_id (snd tx) = messageId)) as [Heq|Hne];
    [|by rewrite step_other_id].
  revert Hex'. destruct tx as [env [id h p e b c | id v p]];
    simpl in Heq; subst id; unfold step, transact; simpl.
  - by rewrite sendMessage_existing.
  - destruct (decryptMessage env messageId v p s) as [[] s'|] eqn:Hs; [|done].
    apply decryptMessage_Ok_inv in Hs as (_ & _ & _ & _ & v' & _ & ->).
    unfold message_exists. rewrite message_at_after_decrypt_eq.
    by destruct (isBurnAfterReading (message_at s messageId)).
Qed.

(** While a record exists, no transaction changes its handle,
    expiration time, burn flag, sender, creation time or condition. *)
Theorem creation_fields_immutable (txs : list (Env * Call)) (s : State)
    (messageId : string) :
  exists_throughout messageId txs s = true ->
  creation_fields (message_at (run txs s) messageId) =
  creation_fields (message_at s messageId).
Proof.
  revert s. induction txs as [|tx txs IH]; intros s; simpl; [done|].
  intros [Hex Hrest]%andb_true_iff.
  rewrite IH by done. apply step_keeps_creation_fields; [done|].
  destruct txs; simpl in Hrest; by apply andb_true_iff in Hrest as [? _].
Qed.

Lemma step_keeps_expired (tx : Env * Call) (s : State) (messageId : string) :
  message_exists s messageId = true ->
  (expirationTime (message_at s messageId) < block_timestamp (fst tx))%Z ->
  isDecrypted (message_at s messageId) = false ->
  message_at (step tx s) messageId = message_at s messageId.
Proof.
  intros Hex Hlate Hnd.
  destruct (decide (call_id (snd tx) = messageId)) as [Heq|Hne];
    [|by rewrite step_other_id].
  destruct tx as [env [id h p e b c | id v p]];
    simpl in Heq, Hlate; subst id; unfold step, transact; simpl.
  - by rewrite sendMessage_existing.
  - rewrite decryptMessage_ladder; cbv zeta. unfold message_exists in Hex.
    rewrite Hex, Hnd.
    by destruct (Z.leb_spec (block_timestamp env)
                   (expirationTime (message_at s messageId))); [lia|].
Qed.

(** A record that expired undecrypted is inert: if block times do not
    go back, no later history changes it, every later [decryptMessage]
    fails with [Expired], and [getMessage] keeps returning it. *)
Theorem expired_record_is_inert (txs : list (Env * Call)) (s : State)
    (messageId : string) (now : uint256) :
  let m := message_at s messageId in
  message_exists s messageId = true ->
  isDecrypted m = false ->
  (expirationTime m < now)%Z ->
  not_before now txs ->
  let s' := run txs s in
  message_at s' messageId = m /\
  getMessage messageId s' =
    Ok (expirationTime m, isBurnAfterReading m, false, sender m, timestamp m,
        condition m, decryptedContent m) s' /\
  forall env clear proof,
    (now <= block_timestamp env)%Z ->
    decryptMessage env messageId clear proof s' = Revert Expired s'.
Proof.
  cbv zeta. intros Hex Hnd Hlate Hall.
  assert (message_at (run txs s) messageId = message_at s messageId) as Hkeep.
  { revert s Hex Hnd Hlate. induction Hall as [|tx txs Htx _ IH];
      intros s Hex Hnd Hlate; simpl; [done|].
    assert (message_at (step tx s) messageId = message_at s messageId) as Hstep
      by (apply step_keeps_expired; [done|lia|done]).
    rewrite IH; [done|..]; unfold message_exists in *; by rewrite Hstep. }
  unfold message_exists in Hex.
  split; [done|]. split.
  - rewrite getMessage_ladder; cbv zeta. by rewrite Hkeep, Hex, Hnd.
  - intros env clear proof Henv.
    rewrite decryptMessage_ladder; cbv zeta. rewrite Hkeep, Hex, Hnd.
    by destruct (Z.leb_spec (block_timestamp env)
                   (expirationTime (message_at s messageId))); [lia|].
Qed.

End Reachable.

(** ** The operation history of the front end *)

Section History.

Lemma take_app_cons_take {A} (n : nat) (l : list A) (x : A) (h : list A) :
  take (S n) (l ++ x :: take n h) = take (S n) (l ++ x :: h).
Proof.
  rewrite !take_app.
  destruct (S n - length l)%nat as [|k] eqn:Hk; [done|]; simpl.
  rewrite take_take. by replace (k `min` n)%nat with k by lia.
Qed.

Lemma history_fold (actions : list (string * string)) (h : list string) :
  take 10 (fold_left (fun prev ta => addToHistory (fst ta) (snd ta) prev) actions h) =
  take 10 (rev (map (fun ta => history_entry (fst ta) (snd ta)) actions) ++ h).
Proof.
  revert h. induction actions as [|[t a] actions IH]; intros h; simpl; [done|].
  rewrite IH. unfold addToHistory; simpl. rewrite <- app_assoc; simpl.
  apply (take_app_cons_take 9).
Qed.

Lemma history_length (actions : list (string * string)) :
  (length (history_after actions) <= 10)%nat.
Proof.
  unfold history_after.
  assert (forall h, (length h <= 10)%nat ->
            (length (fold_left (fun prev ta => addToHistory (fst ta) (snd ta) prev)
                       actions h) <= 10)%nat) as Hgen.
  { induction actions as [|[t a] actions IH]; intros h Hh; simpl; [done|].
    apply IH. unfold addToHistory; simpl. rewrite length_take. lia. }
  apply Hgen. simpl. lia.
Qed.

(** The operation history is the ten most recent entries, newest
    first: after any sequence of actions it holds at most ten entries,
    and they are the formatted entries of the last ten actions in
    reverse order. *)
Theorem history_keeps_ten_newest (actions : list (string * string)) :
  (length (history_after actions) <= 10)%nat /\
  history_after actions =
    take 10 (rev (map (fun ta => history_entry (fst ta) (snd ta)) actions)).
Proof.
  split; [apply history_length|].
  rewrite <- (take_ge (history_after actions) 10) by apply history_length.
  unfold history_after. by rewrite history_fold, app_nil_r.
Qed.

End History.

(** ** More scenarios on the test double *)

Section MoreScenarios.

Import Double.

(** ["m2"] sent on the ledger that holds ["m1"], and read back. *)
Lemma send_then_read_witness :
  exists s',
    sendMessage (fhe := fhe) (at_time bob (T + 5)) "m2" 11 inputProof (T + 60) false "m2"
      sent = Ok tt s' /\
    getMessage "m2" s' = Ok ((T + 60)%Z, false, false, bob, (T + 5)%Z, "m2", 0%Z) s' /\
    messageIds s' = messageIds sent ++ ["m2"].
Proof.
  destruct (send_then_read (fhe := fhe) (at_time bob (T + 5)) "m2" 11 inputProof
              (T + 60) false "m2" sent 11)
    as (s' & Hsend & Hget & _ & Hids & _); [by vm_compute ..|].
  exists s'. by repeat split.
Defined.

(** Four bytes of data, with a proof the double accepts for them. *)
Lemma decrypt_rejects_short_data_witness :
  step (fhe := fhe)
    (at_time bob (T + 10),
     DecryptMessage "m1" [Byte.x00; Byte.x00; Byte.x00; Byte.x2a] proof42) sent = sent.
Proof.
  destruct (decrypt_rejects_short_data (fhe := fhe) (at_time bob (T + 10)) "m1"
              [Byte.x00; Byte.x00; Byte.x00; Byte.x2a] proof42 sent)
    as [_ Hkeep]; [simpl; lia|].
  exact Hkeep.
Defined.

(** ["m1"] burned with clear value 1 or with clear value 42. *)
Lemma burn_leaves_no_value_in_storage_witness :
  encryptedMessages
    (step (fhe := fhe)
       (at_time bob (T + 10), DecryptMessage "m1" (abi_encode_uint32 1) [Byte.x08])
       sent_burn)
  = encryptedMessages burned.
Proof.
  destruct (burn_leaves_no_value_in_storage (fhe := fhe) (at_time bob (T + 10))
              (at_time bob (T + 10)) "m1" (abi_encode_uint32 1) [Byte.x08]
              clear42 proof42 sent_burn
              (step (fhe := fhe)
                 (at_time bob (T + 10), DecryptMessage "m1" (abi_encode_uint32 1) [Byte.x08])
                 sent_burn)
              burned)
    as (_ & Hsame & _); [by vm_compute ..|].
  exact Hsame.
Defined.

Lemma existing_record_is_listed_witness :
  "m1" ∈ messageIds decrypted /\ MessageSent "m1" alice ∈ events decrypted.
Proof.
  destruct (existing_record_is_listed (fhe := fhe)
              [send_m1 false; decrypt_m1 (T + 10)] "m1") as [Hin Hev];
    [by vm_compute|].
  split; [exact Hin|exact Hev].
Defined.

Lemma existing_handle_is_public_witness :
  MakePubliclyDecryptable handle ∈ acl_calls decrypted.
Proof.
  destruct (existing_handle_is_public (fhe := fhe)
              [send_m1 false; decrypt_m1 (T + 10)] "m1") as (_ & _ & Hpub);
    [by vm_compute|].
  exact Hpub.
Defined.

Lemma decrypted_flag_has_event_witness :
  MessageDecrypted "m1" 42 ∈ events decrypted.
Proof.
  destruct (decrypted_flag_has_event (fhe := fhe)
              [send_m1 false; decrypt_m1 (T + 10)] "m1") as (_ & _ & Hev);
    [by vm_compute|].
  exact Hev.
Defined.

(** The event of ["m1"] is still true after ["m2"] was sent. *)
Lemma decrypted_event_is_permanent_witness :
  let s := run (fhe := fhe) [send_m1 false; decrypt_m1 (T + 10); send_m2] empty_state in
  getMessage "m1" s =
    Ok ((T + 3600)%Z, false, true, alice, T, "after noon", 42%Z) s.
Proof.
  cbv zeta.
  destruct (decrypted_event_is_permanent (fhe := fhe)
              [send_m1 false; decrypt_m1 (T + 10); send_m2] "m1" 42) as [Hget _].
  - vm_compute. right; left.
  - exact Hget.
Defined.

Lemma other_records_untouched_witness :
  message_at (run (fhe := fhe) [send_m2] sent) "m1" = message_at sent "m1".
Proof.
  destruct (other_records_untouched (fhe := fhe) [send_m2] sent "m1") as [Hkeep _].
  - repeat constructor. by vm_compute.
  - exact Hkeep.
Defined.

Lemma messageIds_index_stable_witness :
  messageIds (run (fhe := fhe) [send_m2; decrypt_m1 (T + 10)] sent_burn) !! 0%nat
  = Some "m1".
Proof.
  destruct (messageIds_index_stable (fhe := fhe) [send_m2; decrypt_m1 (T + 10)]
              sent_burn 0 "m1") as [Hkeep _]; [by vm_compute|].
  exact Hkeep.
Defined.

Lemma creation_fields_immutable_witness :
  creation_fields (message_at (run (fhe := fhe) [send_m2; decrypt_m1 (T + 10)] sent) "m1")
  = creation_fields (message_at sent "m1").
Proof.
  apply (creation_fields_immutable (fhe := fhe)). by vm_compute.
Defined.

(** ["m1"], not decrypted before [T + 3600], at [T + 3601] and later. *)
Lemma expired_record_is_inert_witness :
  let s' := run (fhe := fhe) [decrypt_m1 (T + 3601); (at_time bob (T + 3700),
              SendMessage "m1" 13 inputProof (T + 9999) false "again")] sent in
  message_at s' "m1" = message_at sent "m1" /\
  decryptMessage (fhe := fhe) (at_time alice (T + 4000)) "m1" clear42 proof42 s'
    = Revert Expired s'.
Proof.
  cbv zeta.
  destruct (expired_record_is_inert (fhe := fhe)
              [decrypt_m1 (T + 3601); (at_time bob (T + 3700),
                 SendMessage "m1" 13 inputProof (T + 9999) false "again")]
              sent "m1" (T + 3601)) as (Hkeep & _ & Hdec).
  - by vm_compute.
  - by vm_compute.
  - by vm_compute.
  - repeat constructor; by vm_compute.
  - split; [exact Hkeep|]. apply Hdec. by vm_compute.
Defined.

End MoreScenarios.
